(** * Haven web client: sender-key self-copies and the encrypted crypto store

    Two parts of the client are embedded here.

    - [SenderKeys]: the in-memory sender-key store and the key-distribution
      coordinator of [lib/crypto.ts] ([ensureSenderKeyDistributed],
      [invalidateSenderKey], [clearCryptoState]).  Typed arrays live in an
      explicit heap so that aliasing between an own key and its self-copy can
      be stated.
    - [CryptoStore]: [lib/crypto-store.ts], the IndexedDB persistence of the
      encrypted session snapshot ([deriveStorageKey], [persistCryptoState],
      [loadCryptoState], [clearCryptoStore]).  Promises are modelled by how
      they end ([Resolved], [Rejected], or never settled: [Pending])
      together with the world they leave behind. *)

From Stdlib Require Import ZArith String Ascii Lia.
From stdpp Require Import base option gmap sets list strings.

Set Warnings "-level-tolerance,-clear-no-such-hyp".

Abbreviation bytes := (list Z).

(** ** Sender keys *)

Module SenderKeys.

(** A [Uint8Array] is an object: the heap maps its address to its contents. *)
Abbreviation loc := nat.

Record SenderKey := mkSenderKey {
  distributionId : loc;
  chainKey : loc;
  chainIndex : nat
}.

Record ReceivedSenderKey := mkReceived {
  fromUserId : string;
  key : SenderKey
}.

(** What the primitive provider hands back from one [generateSenderKey()]
    call, by value; its two buffers are allocated when the call returns. *)
Record GeneratedKey := mkGenerated {
  genDistributionId : bytes;
  genChainKey : bytes;
  genChainIndex : nat
}.

Record state := mkState {
  heap : gmap loc bytes;
  mySenderKeys : gmap string SenderKey;
  receivedSenderKeys : gmap (string * bytes) ReceivedSenderKey;
  distributedChannels : gset string
}.

(** What one call of the coordinator sees of its collaborators: the auth
    store's user id, the provider's answer should it be asked ([None]: the
    provider throws), and whether the network fan-out succeeds should it be
    attempted. *)
Record Env := mkEnv {
  localUserId : option string;
  generated : option GeneratedKey;
  distributionOk : bool
}.

Inductive result :=
  | Returned (k : SenderKey)
  | GenerationFailure.

(** *** Heap of typed arrays *)

Definition alloc (b : bytes) (h : gmap loc bytes) : loc * gmap loc bytes :=
  let l := fresh (dom h) in (l, <[l := b]> h).

Definition read (l : loc) (h : gmap loc bytes) : bytes :=
  default [] (h !! l).

(** [buf[i] = v] on a [Uint8Array]: the value wraps to a byte and a write past
    the end is dropped. *)
Definition write_byte (l : loc) (i : nat) (v : Z) (h : gmap loc bytes)
  : gmap loc bytes :=
  alter (fun b : bytes => <[i := (v `mod` 256)%Z]> b) l h.

(** [new Uint8Array(buf)] *)
Definition clone_buffer (l : loc) (h : gmap loc bytes) : loc * gmap loc bytes :=
  alloc (read l h) h.

Definition cloneSenderKey (k : SenderKey) (h : gmap loc bytes)
  : SenderKey * gmap loc bytes :=
  let '(d, h1) := clone_buffer (distributionId k) h in
  let '(c, h2) := clone_buffer (chainKey k) h1 in
  (mkSenderKey d c (chainIndex k), h2).

Definition generateSenderKey (g : GeneratedKey) (h : gmap loc bytes)
  : SenderKey * gmap loc bytes :=
  let '(d, h1) := alloc (genDistributionId g) h in
  let '(c, h2) := alloc (genChainKey g) h1 in
  (mkSenderKey d c (genChainIndex g), h2).

(** The generator mocked in the self-copy tests of [lib/crypto.ts]: the [callCount]-th call
    (counted from 1) returns the id 1..16 with its first byte overwritten by
    the count, and 32 bytes 0xab as chain key. *)
Definition mock_generateSenderKey (callCount : nat) : GeneratedKey :=
  mkGenerated
    (<[0%nat := (Z.of_nat callCount `mod` 256)%Z]>
       [1; 2; 3; 4; 5; 6; 7; 8; 9; 10; 11; 12; 13; 14; 15; 16]%Z)
    (replicate 32 171%Z)
    0.

(** *** SenderKeyStore *)

Definition set_heap (h : gmap loc bytes) (s : state) : state :=
  mkState h (mySenderKeys s) (receivedSenderKeys s) (distributedChannels s).

(** Modelled from the spec: the SenderKeyStore contract of [lib/crypto.ts],
    which is not among the sources: [getOwnKey], [setOwnKey],
    [removeOwnKey], [addReceivedKey], [listReceivedKeys] and [clear], over
    the three structures that the tests read through [exportCryptoState]. *)
Definition getOwnKey (c : string) (s : state) : option SenderKey :=
  mySenderKeys s !! c.

(** Modelled from the spec: [setOwnKey] of the absent SenderKeyStore. *)
Definition setOwnKey (c : string) (k : SenderKey) (s : state) : state :=
  mkState (heap s) (<[c := k]> (mySenderKeys s)) (receivedSenderKeys s)
          (distributedChannels s).


(** Modelled from the spec: [addReceivedKey] of [lib/crypto.ts], which is not
    among the sources.  It inserts a deep clone of [k] under
    (channel, contents of the distribution id) and does nothing when that
    pair is already present. *)
Definition addReceivedKey (c : string) (distId : loc) (from : string)
    (k : SenderKey) (s : state) : state :=
  let id := read distId (heap s) in
  match receivedSenderKeys s !! (c, id) with
  | Some _ => s
  | None =>
      let '(k', h') := cloneSenderKey k (heap s) in
      mkState h' (mySenderKeys s)
              (<[(c, id) := mkReceived from k']> (receivedSenderKeys s))
              (distributedChannels s)
  end.

(** Modelled from the spec: [listReceivedKeys] of the absent
    SenderKeyStore, the entries of one channel in no particular order. *)
Definition listReceivedKeys (c : string) (s : state)
  : list ((string * bytes) * ReceivedSenderKey) :=
  filter (fun e => e.1.1 = c) (map_to_list (receivedSenderKeys s)).

(** The entries of channel [c] that came from user [u]. *)
Definition selfCopies (u c : string) (s : state)
  : list ((string * bytes) * ReceivedSenderKey) :=
  filter (fun e => fromUserId e.2 = u) (listReceivedKeys c s).

(** Modelled from the spec: the absent coordinator marking a channel as
    distributed. *)
Definition markDistributed (c : string) (s : state) : state :=
  mkState (heap s) (mySenderKeys s) (receivedSenderKeys s)
          ({[c]} ∪ distributedChannels s).

(** Modelled from the spec: [clearCryptoState] of [lib/crypto.ts] (absent);
    it empties the three structures.  Buffers still referenced by a caller
    stay in the heap. *)
Definition clearCryptoState (s : state) : state :=
  mkState (heap s) ∅ ∅ ∅.

Definition empty_state : state := mkState ∅ ∅ ∅ ∅.

(** *** KeyDistributionCoordinator *)


(** Modelled from the spec: steps 3 and 4 of the absent coordinator, which
    attempts the fan-out, marks the channel on success and leaves it
    unmarked on failure. *)
Definition distribute (c : string) (env : Env) (s : state) : state :=
  if distributionOk env then markDistributed c s else s.

(** Modelled from the spec: step 2 of the absent coordinator, which
    generates a key, stores it as own key and, when a user id is known,
    clones it into fresh buffers and adds the clone as received key. *)
Definition generateAndStore (c : string) (env : Env) (g : GeneratedKey)
    (s : state) : SenderKey * state :=
  let '(k, h1) := generateSenderKey g (heap s) in
  let s1 := setOwnKey c k (set_heap h1 s) in
  match localUserId env with
  | Some u =>
      let '(copy, h2) := cloneSenderKey k (heap s1) in
      (k, addReceivedKey c (distributionId k) u copy (set_heap h2 s1))
  | None => (k, s1)
  end.

(** Modelled from the spec: [ensureSenderKeyDistributed] of [lib/crypto.ts]
    (absent; only its tests are among the sources), following the four steps
    the spec gives for [ensureDistributed]. *)
Definition ensureSenderKeyDistributed (c : string) (env : Env) (s : state)
  : result * state :=
  match getOwnKey c s with
  | Some k =>
      if decide (c ∈ distributedChannels s) then (Returned k, s)
      else (Returned k, distribute c env s)
  | None =>
      match generated env with
      | None => (GenerationFailure, s)
      | Some g =>
          let '(k, s1) := generateAndStore c env g s in
          (Returned k, distribute c env s1)
      end
  end.

Definition testEnv (user : option string) (callCount : nat) : Env :=
  mkEnv user (Some (mock_generateSenderKey callCount)) true.


(** The relation a received entry [e] bears to an own key [k] when it is the
    self-copy of [k] made for user [u] on channel [c]: stored under the key's
    id, attributed to [u], equal field by field, in buffers of its own. *)
Definition isSelfCopy (s : state) (u c : string) (k : SenderKey)
    (e : ReceivedSenderKey) : Prop :=
  receivedSenderKeys s !! (c, read (distributionId k) (heap s)) = Some e ∧
  fromUserId e = u ∧
  read (distributionId (key e)) (heap s) = read (distributionId k) (heap s) ∧
  read (chainKey (key e)) (heap s) = read (chainKey k) (heap s) ∧
  chainIndex (key e) = chainIndex k ∧
  distributionId (key e) ≠ distributionId k ∧
  chainKey (key e) ≠ chainKey k.

(** The received entries stored under exactly the pair (channel, id). *)
Definition entriesAt (c : string) (id : bytes) (s : state)
  : list ((string * bytes) * ReceivedSenderKey) :=
  filter (fun e => e.1 = (c, id)) (map_to_list (receivedSenderKeys s)).

(** *** Facts about the heap *)

Section heap_facts.
Implicit Types (h : gmap loc bytes) (l : loc) (b : bytes).

Lemma alloc_spec b h l h' :
  alloc b h = (l, h') → l ∉ dom h ∧ h' = <[l := b]> h.
Proof.
  unfold alloc. intros [= <- <-]. split; [apply is_fresh | done].
Qed.

Lemma read_insert_eq l b h : read l (<[l := b]> h) = b.
Proof. unfold read. by rewrite lookup_insert_eq. Qed.

Lemma read_insert_ne l l' b h : l ≠ l' → read l' (<[l := b]> h) = read l' h.
Proof. intros Hne. unfold read. by rewrite lookup_insert_ne. Qed.

Lemma read_insert_old l l' b h :
  l ∉ dom h → l' ∈ dom h → read l' (<[l := b]> h) = read l' h.
Proof. intros Hl Hl'. apply read_insert_ne. set_solver. Qed.

(** Writing through one buffer is invisible through any other. *)
Lemma read_write_byte_ne l l' i v h :
  l ≠ l' → read l' (write_byte l i v h) = read l' h.
Proof. intros Hne. unfold read, write_byte. by rewrite lookup_alter_ne. Qed.

Lemma generateSenderKey_spec g h k h' :
  generateSenderKey g h = (k, h') →
  distributionId k ∉ dom h ∧ chainKey k ∉ dom h ∧
  distributionId k ≠ chainKey k ∧
  dom h' = {[distributionId k; chainKey k]} ∪ dom h ∧
  read (distributionId k) h' = genDistributionId g ∧
  read (chainKey k) h' = genChainKey g ∧
  chainIndex k = genChainIndex g ∧
  (∀ l, l ∈ dom h → read l h' = read l h).
Proof.
  unfold generateSenderKey.
  destruct (alloc (genDistributionId g) h) as [d h1] eqn:Hd.
  destruct (alloc (genChainKey g) h1) as [ck h2] eqn:Hc.
  intros [= <- <-]. simpl.
  apply alloc_spec in Hd as [Hd ->]. apply alloc_spec in Hc as [Hc ->].
  rewrite dom_insert_L in Hc. rewrite !dom_insert_L.
  assert (d ≠ ck) by set_solver.
  repeat split; try set_solver.
  - by rewrite read_insert_ne, read_insert_eq.
  - by rewrite read_insert_eq.
  - intros l Hl. rewrite !read_insert_ne; set_solver.
Qed.

Lemma cloneSenderKey_spec k h k' h' :
  cloneSenderKey k h = (k', h') →
  distributionId k ∈ dom h → chainKey k ∈ dom h →
  distributionId k' ∉ dom h ∧ chainKey k' ∉ dom h ∧
  dom h' = {[distributionId k'; chainKey k']} ∪ dom h ∧
  read (distributionId k') h' = read (distributionId k) h ∧
  read (chainKey k') h' = read (chainKey k) h ∧
  chainIndex k' = chainIndex k ∧
  (∀ l, l ∈ dom h → read l h' = read l h).
Proof.
  unfold cloneSenderKey, clone_buffer.
  destruct (alloc (read (distributionId k) h) h) as [d h1] eqn:Hd.
  destruct (alloc (read (chainKey k) h1) h1) as [ck h2] eqn:Hc.
  intros [= <- <-] Hkd Hkc. simpl.
  apply alloc_spec in Hd as [Hd ->]. apply alloc_spec in Hc as [Hc ->].
  rewrite dom_insert_L in Hc. rewrite !dom_insert_L.
  assert (d ≠ ck) by set_solver.
  repeat split; try set_solver.
  - by rewrite read_insert_ne, read_insert_eq.
  - rewrite read_insert_eq. apply read_insert_old; done.
  - intros l Hl. rewrite !read_insert_ne; set_solver.
Qed.
End heap_facts.


(** *** Facts about the store and the coordinator *)

#[local] Arguments alloc : simpl never.
#[local] Arguments read : simpl never.
#[local] Arguments cloneSenderKey : simpl never.
#[local] Arguments generateSenderKey : simpl never.

Lemma distribute_heap c env s : heap (distribute c env s) = heap s.
Proof. unfold distribute. by destruct (distributionOk env). Qed.

Lemma distribute_mySenderKeys c env s :
  mySenderKeys (distribute c env s) = mySenderKeys s.
Proof. unfold distribute. by destruct (distributionOk env). Qed.

Lemma distribute_receivedSenderKeys c env s :
  receivedSenderKeys (distribute c env s) = receivedSenderKeys s.
Proof. unfold distribute. by destruct (distributionOk env). Qed.

Lemma distribute_marks c env s :
  distributionOk env = true → c ∈ distributedChannels (distribute c env s).
Proof. unfold distribute. intros ->. simpl. set_solver. Qed.

(** Generation without a known user: the own key is stored, nothing else. *)
Lemma generateAndStore_anonymous c env g s k s' :
  localUserId env = None →
  generateAndStore c env g s = (k, s') →
  mySenderKeys s' = <[c := k]> (mySenderKeys s) ∧
  receivedSenderKeys s' = receivedSenderKeys s ∧
  distributedChannels s' = distributedChannels s ∧
  read (distributionId k) (heap s') = genDistributionId g ∧
  read (chainKey k) (heap s') = genChainKey g ∧
  chainIndex k = genChainIndex g.
Proof.
  unfold generateAndStore. intros ->.
  destruct (generateSenderKey g (heap s)) as [k0 h1] eqn:Hg.
  intros [= <- <-]. simpl.
  apply generateSenderKey_spec in Hg as (_ & _ & _ & _ & Hd & Hc & Hi & _).
  done.
Qed.

(** Generation under a known user [u], with an id not yet stored for the
    channel: the own key is stored and one received entry is added, the
    self-copy. *)
Lemma generateAndStore_user c env u g s k s' :
  localUserId env = Some u →
  receivedSenderKeys s !! (c, genDistributionId g) = None →
  generateAndStore c env g s = (k, s') →
  ∃ e,
    mySenderKeys s' = <[c := k]> (mySenderKeys s) ∧
    receivedSenderKeys s'
      = <[(c, genDistributionId g) := e]> (receivedSenderKeys s) ∧
    distributedChannels s' = distributedChannels s ∧
    read (distributionId k) (heap s') = genDistributionId g ∧
    read (chainKey k) (heap s') = genChainKey g ∧
    chainIndex k = genChainIndex g ∧
    isSelfCopy s' u c k e ∧
    (∀ l, l ∈ dom (heap s) → read l (heap s') = read l (heap s)).
Proof.
  unfold generateAndStore. intros -> Hfresh.
  destruct (generateSenderKey g (heap s)) as [k0 h1] eqn:Hg.
  cbn [heap setOwnKey set_heap].
  destruct (cloneSenderKey k0 h1) as [copy h2] eqn:Hc1.
  intros [= <- <-].
  apply generateSenderKey_spec in Hg
    as (Hd0 & Hc0 & Hne0 & Hdom1 & Hrd & Hrc & Hi & Hold1).
  apply cloneSenderKey_spec in Hc1
    as (Hd1 & Hck1 & Hdom2 & Hrd1 & Hrc1 & Hi1 & Hold2); [| set_solver..].
  unfold addReceivedKey.
  cbn [heap setOwnKey set_heap receivedSenderKeys mySenderKeys
       distributedChannels].
  assert (Hkd2 : distributionId k0 ∈ dom h2) by set_solver.
  assert (Hkc2 : chainKey k0 ∈ dom h2) by set_solver.
  assert (Hid : read (distributionId k0) h2 = genDistributionId g).
  { rewrite Hold2 by set_solver. done. }
  rewrite Hid, Hfresh.
  destruct (cloneSenderKey copy h2) as [k' h3] eqn:Hc2.
  cbn [heap receivedSenderKeys mySenderKeys distributedChannels].
  apply cloneSenderKey_spec in Hc2
    as (Hd2 & Hck2 & Hdom3 & Hrd2 & Hrc2 & Hi2 & Hold3); [| set_solver..].
  exists (mkReceived u k'). unfold isSelfCopy. simpl.
  assert (Hold : ∀ l, l ∈ dom (heap s) → read l h3 = read l (heap s)).
  { intros l Hl. rewrite Hold3, Hold2, Hold1; set_solver. }
  rewrite !Hold3 by done. rewrite !Hold2 by set_solver.
  rewrite Hrd2, Hrc2, Hrd1, Hrc1, Hrd, Hrc, lookup_insert_eq.
  repeat split; try done; congruence.
Qed.


Section received_entries.
Implicit Types (m : gmap (string * bytes) ReceivedSenderKey).

Lemma filter_key_map_to_list m (k : string * bytes) v :
  m !! k = Some v →
  filter (fun e : (string * bytes) * ReceivedSenderKey => e.1 = k)
         (map_to_list m) = [(k, v)].
Proof.
  intros Hk. apply Permutation_singleton_r.
  rewrite <- (insert_delete_id m k v Hk) at 1.
  rewrite map_to_list_insert by apply lookup_delete_eq.
  rewrite filter_cons_True by done.
  apply Permutation_skip, Permutation_nil_r.
  destruct (filter _ (map_to_list (delete k m))) as [| [k' v'] l] eqn:Hf;
    [done | exfalso].
  assert (Hin : (k', v') ∈ (k', v') :: l) by left.
  rewrite <- Hf in Hin. apply list_elem_of_filter in Hin as [Hk' Hin].
  simpl in Hk'. subst k'. apply elem_of_map_to_list in Hin.
  by rewrite lookup_delete_eq in Hin.
Qed.

(** Adding one entry of user [u] on channel [c] under an unused pair adds
    exactly one element to what is listed for ([u], [c]). *)
Lemma length_filter_insert_fresh m (k : string * bytes) v
    (P : (string * bytes) * ReceivedSenderKey → Prop)
    `{!∀ x, Decision (P x)} :
  m !! k = None → P (k, v) →
  length (filter P (map_to_list (<[k := v]> m)))
  = S (length (filter P (map_to_list m))).
Proof.
  intros Hk HP. rewrite map_to_list_insert by done.
  by rewrite filter_cons_True.
Qed.
End received_entries.

Lemma entriesAt_lookup c id s e :
  receivedSenderKeys s !! (c, id) = Some e → entriesAt c id s = [((c, id), e)].
Proof. apply filter_key_map_to_list. Qed.

Lemma selfCopies_filter u c s :
  selfCopies u c s
  = filter (fun e => fromUserId e.2 = u ∧ e.1.1 = c)
           (map_to_list (receivedSenderKeys s)).
Proof.
  unfold selfCopies, listReceivedKeys.
  induction (map_to_list (receivedSenderKeys s)) as [| x l IH]; [done |].
  destruct (decide (x.1.1 = c)) as [Hc | Hc].
  - rewrite (filter_cons_True (fun e => e.1.1 = c)) by done.
    destruct (decide (fromUserId x.2 = u)) as [Hu | Hu].
    + rewrite !filter_cons_True by done. by rewrite IH.
    + rewrite !filter_cons_False by tauto. done.
  - rewrite (filter_cons_False (fun e => e.1.1 = c)) by done.
    rewrite filter_cons_False by tauto. done.
Qed.

Lemma selfCopies_ext u c s1 s2 :
  receivedSenderKeys s1 = receivedSenderKeys s2 →
  selfCopies u c s1 = selfCopies u c s2.
Proof. unfold selfCopies, listReceivedKeys. by intros ->. Qed.

Lemma selfCopies_insert_fresh u c id e s s' :
  receivedSenderKeys s !! (c, id) = None →
  receivedSenderKeys s' = <[(c, id) := e]> (receivedSenderKeys s) →
  fromUserId e = u →
  length (selfCopies u c s') = S (length (selfCopies u c s)).
Proof.
  intros Hnone Hins Hu. rewrite !selfCopies_filter, Hins.
  apply length_filter_insert_fresh; done.
Qed.


(** What [ensureSenderKeyDistributed] leaves behind when it has to generate:
    the pair computed by step 2, then the fan-out of steps 3 and 4. *)
Lemma ensure_generation c env g s :
  getOwnKey c s = None → generated env = Some g →
  ensureSenderKeyDistributed c env s
  = (Returned (generateAndStore c env g s).1,
     distribute c env (generateAndStore c env g s).2).
Proof.
  intros Hown Hgen. unfold ensureSenderKeyDistributed. rewrite Hown, Hgen.
  by destruct (generateAndStore c env g s).
Qed.

(** *** The self-copy made at generation time *)

(** C1 (invariant I1): when [ensureSenderKeyDistributed c] generates the
    own key of [c] (none was stored before the call) while the local user
    id [U] is known, the new distribution id being one not yet stored for
    [c] (I3), the received store holds exactly one entry under
    (c, own key's id); it is attributed to [U], equals the own key field by
    field, lives in buffers distinct from the own key's, and a write through
    the own key's chain-key buffer does not show in the copy. *)
Theorem ensure_generates_self_copy (c U : string) (env : Env)
    (g : GeneratedKey) (s : state) :
  localUserId env = Some U →
  generated env = Some g →
  getOwnKey c s = None →
  receivedSenderKeys s !! (c, genDistributionId g) = None →
  ∃ k e,
    let s' := (ensureSenderKeyDistributed c env s).2 in
    (ensureSenderKeyDistributed c env s).1 = Returned k ∧
    getOwnKey c s' = Some k ∧
    isSelfCopy s' U c k e ∧
    entriesAt c (read (distributionId k) (heap s')) s'
      = [((c, read (distributionId k) (heap s')), e)] ∧
    ∀ i v, read (chainKey (key e)) (write_byte (chainKey k) i v (heap s'))
           = read (chainKey (key e)) (heap s').
Proof.
  intros Hu Hg Hown Hfresh.
  rewrite (ensure_generation c env g s Hown Hg).
  destruct (generateAndStore c env g s) as [k s1] eqn:Hgs.
  destruct (generateAndStore_user c env U g s k s1 Hu Hfresh Hgs)
    as (e & Hmy & Hrecv & Hdist & Hrd & Hrc & Hi & Hself & Hold).
  exists k, e. cbn [fst snd].
  assert (Hself' : isSelfCopy (distribute c env s1) U c k e).
  { unfold isSelfCopy in *.
    by rewrite distribute_heap, distribute_receivedSenderKeys. }
  split; [done |]. split.
  { unfold getOwnKey. rewrite distribute_mySenderKeys, Hmy.
    apply lookup_insert_eq. }
  split; [done |]. split.
  { apply entriesAt_lookup. apply Hself'. }
  intros i v. apply read_write_byte_ne.
  destruct Hself' as (_ & _ & _ & _ & _ & _ & Hne). congruence.
Qed.

(** *** Generation without a user id *)

(** C9: when [ensureSenderKeyDistributed c] generates a key while no local
    user id is known, the own key of [c] is generated and stored with the
    provider's contents, and the received store is left as it was, so its
    size does not change (0 stays 0). *)
Theorem ensure_without_user_stores_no_self_copy (c : string) (env : Env)
    (g : GeneratedKey) (s : state) :
  localUserId env = None →
  generated env = Some g →
  getOwnKey c s = None →
  ∃ k,
    let s' := (ensureSenderKeyDistributed c env s).2 in
    (ensureSenderKeyDistributed c env s).1 = Returned k ∧
    getOwnKey c s' = Some k ∧
    read (distributionId k) (heap s') = genDistributionId g ∧
    read (chainKey k) (heap s') = genChainKey g ∧
    chainIndex k = genChainIndex g ∧
    receivedSenderKeys s' = receivedSenderKeys s ∧
    size (receivedSenderKeys s') = size (receivedSenderKeys s).
Proof.
  intros Hu Hg Hown.
  rewrite (ensure_generation c env g s Hown Hg).
  destruct (generateAndStore c env g s) as [k s1] eqn:Hgs.
  destruct (generateAndStore_anonymous c env g s k s1 Hu Hgs)
    as (Hmy & Hrecv & Hdist & Hrd & Hrc & Hi).
  exists k. cbn [fst snd].
  rewrite distribute_heap, distribute_receivedSenderKeys, Hrecv.
  repeat split; try done.
  unfold getOwnKey. rewrite distribute_mySenderKeys, Hmy.
  apply lookup_insert_eq.
Qed.

(** *** Idempotence *)

(** C5: when a call of [ensureSenderKeyDistributed c] returns a key and its
    distribution succeeds, the next call for [c] (whatever the collaborators
    would answer) returns that same key, with the identical distribution id,
    and changes nothing: no second key, no further received entry.  When
    the first call generated the key under user [U], who had no self-copy on
    [c] before, exactly one self-copy of [U] on [c] remains. *)
Theorem ensure_twice_same_key (c : string) (env1 env2 : Env) (s : state)
    (k1 : SenderKey) :
  distributionOk env1 = true →
  (ensureSenderKeyDistributed c env1 s).1 = Returned k1 →
  let s1 := (ensureSenderKeyDistributed c env1 s).2 in
  let r2 := ensureSenderKeyDistributed c env2 s1 in
  r2.1 = Returned k1 ∧
  r2.2 = s1 ∧
  read (distributionId k1) (heap r2.2) = read (distributionId k1) (heap s1) ∧
  mySenderKeys r2.2 = mySenderKeys s1 ∧
  receivedSenderKeys r2.2 = receivedSenderKeys s1 ∧
  (∀ U g,
     localUserId env1 = Some U → generated env1 = Some g →
     getOwnKey c s = None →
     receivedSenderKeys s !! (c, genDistributionId g) = None →
     selfCopies U c s = [] →
     length (selfCopies U c r2.2) = 1).
Proof.
  intros Hok Hr1 s1 r2.
  assert (Hown1 : getOwnKey c s1 = Some k1 ∧ c ∈ distributedChannels s1).
  { subst s1. revert Hr1. unfold ensureSenderKeyDistributed.
    destruct (getOwnKey c s) as [k |] eqn:Hown.
    - destruct (decide (c ∈ distributedChannels s)) as [Hin | Hin];
        cbn [fst snd]; intros [= ->].
      + done.
      + split; [| by apply distribute_marks].
        unfold getOwnKey. by rewrite distribute_mySenderKeys.
    - destruct (generated env1) as [g |]; [| done].
      destruct (generateAndStore c env1 g s) as [k s0] eqn:Hgs.
      cbn [fst snd]. intros [= ->].
      split; [| by apply distribute_marks].
      unfold getOwnKey. rewrite distribute_mySenderKeys.
      revert Hgs. unfold generateAndStore.
      destruct (generateSenderKey g (heap s)) as [k0 h1].
      destruct (localUserId env1) as [u |].
      + cbn [heap setOwnKey set_heap].
        destruct (cloneSenderKey k0 h1) as [copy h2].
        intros [= <- <-]. unfold addReceivedKey.
        cbn [heap setOwnKey set_heap receivedSenderKeys mySenderKeys].
        destruct (receivedSenderKeys s !! _).
        * cbn. apply lookup_insert_eq.
        * destruct (cloneSenderKey copy h2). cbn. apply lookup_insert_eq.
      + intros [= <- <-]. cbn. apply lookup_insert_eq. }
  destruct Hown1 as [Hown1 Hin1].
  assert (Hr2 : r2 = (Returned k1, s1)).
  { subst r2. unfold ensureSenderKeyDistributed. rewrite Hown1.
    by destruct (decide (c ∈ distributedChannels s1)). }
  rewrite Hr2. cbn [fst snd]. repeat split; try done.
  intros U g Hu Hg Hown Hfresh Hnil. subst s1.
  rewrite (ensure_generation c env1 g s Hown Hg).
  destruct (generateAndStore c env1 g s) as [k s0] eqn:Hgs.
  destruct (generateAndStore_user c env1 U g s k s0 Hu Hfresh Hgs)
    as (e & Hmy & Hrecv & Hdist & Hrd & Hrc & Hi & Hself & Hold).
  cbn [fst snd].
  rewrite (selfCopies_ext U c _ s0) by apply distribute_receivedSenderKeys.
  rewrite (selfCopies_insert_fresh U c _ e s s0 Hfresh Hrecv)
    by apply Hself.
  by rewrite Hnil.
Qed.

(** *** Invalidation and regeneration *)



(** The mocked provider repeats a distribution id exactly every 256
    calls. *)
Lemma mock_id_eq_iff (i j : nat) :
  genDistributionId (mock_generateSenderKey i)
  = genDistributionId (mock_generateSenderKey j)
  ↔ i `mod` 256 = j `mod` 256.
Proof.
  cbn -[Nat.modulo Z.modulo Z.of_nat]. split.
  - intros [= Heq]. apply Nat2Z.inj.
    by rewrite !(Nat2Z.inj_mod _ 256).
  - intros Heq. f_equal.
    change 256%Z with (Z.of_nat 256). rewrite <- !Nat2Z.inj_mod.
    by rewrite Heq.
Qed.

Lemma mock_id_window (j n : nat) :
  j < n → n < j + 256 →
  genDistributionId (mock_generateSenderKey n)
  ≠ genDistributionId (mock_generateSenderKey j).
Proof.
  intros Hlt Hwin Heq. apply mock_id_eq_iff in Heq.
  pose proof (Nat.div_mod_eq n 256). pose proof (Nat.div_mod_eq j 256).
  lia.
Qed.


(** *** The scenarios of the self-copy tests *)

Lemma ensure_generates_self_copy_witness :
  localUserId (testEnv (Some "user-1") 1) = Some "user-1" ∧
  getOwnKey "ch-1" empty_state = None ∧
  ∃ k e,
    let s' := (ensureSenderKeyDistributed "ch-1" (testEnv (Some "user-1") 1)
                 empty_state).2 in
    (ensureSenderKeyDistributed "ch-1" (testEnv (Some "user-1") 1)
       empty_state).1 = Returned k ∧
    getOwnKey "ch-1" s' = Some k ∧
    isSelfCopy s' "user-1" "ch-1" k e ∧
    entriesAt "ch-1" (read (distributionId k) (heap s')) s'
      = [(("ch-1", read (distributionId k) (heap s')), e)] ∧
    ∀ i v, read (chainKey (key e)) (write_byte (chainKey k) i v (heap s'))
           = read (chainKey (key e)) (heap s').
Proof.
  split; [reflexivity |]. split; [reflexivity |].
  apply (ensure_generates_self_copy "ch-1" "user-1"
           (testEnv (Some "user-1") 1) (mock_generateSenderKey 1) empty_state);
    reflexivity.
Defined.

Lemma ensure_without_user_stores_no_self_copy_witness :
  getOwnKey "ch-1" empty_state = None ∧
  size (receivedSenderKeys empty_state) = 0 ∧
  ∃ k,
    let s' := (ensureSenderKeyDistributed "ch-1" (testEnv None 1)
                 empty_state).2 in
    (ensureSenderKeyDistributed "ch-1" (testEnv None 1) empty_state).1
      = Returned k ∧
    getOwnKey "ch-1" s' = Some k ∧
    read (distributionId k) (heap s')
      = genDistributionId (mock_generateSenderKey 1) ∧
    read (chainKey k) (heap s') = genChainKey (mock_generateSenderKey 1) ∧
    chainIndex k = genChainIndex (mock_generateSenderKey 1) ∧
    receivedSenderKeys s' = receivedSenderKeys empty_state ∧
    size (receivedSenderKeys s') = size (receivedSenderKeys empty_state).
Proof.
  split; [reflexivity |]. split; [reflexivity |].
  apply (ensure_without_user_stores_no_self_copy "ch-1" (testEnv None 1)
           (mock_generateSenderKey 1) empty_state); reflexivity.
Defined.

Lemma ensure_twice_same_key_witness :
  let env := testEnv (Some "user-1") 1 in
  let s1 := (ensureSenderKeyDistributed "ch-1" env empty_state).2 in
  let r2 := ensureSenderKeyDistributed "ch-1" (testEnv (Some "user-1") 2) s1 in
  r2.1 = Returned (mkSenderKey 0 1 0) ∧
  r2.2 = s1 ∧
  length (selfCopies "user-1" "ch-1" r2.2) = 1.
Proof.
  intros env s1 r2.
  destruct (ensure_twice_same_key "ch-1" env (testEnv (Some "user-1") 2)
              empty_state (mkSenderKey 0 1 0))
    as (Hr & Hs & _ & _ & _ & Hone); [reflexivity | reflexivity |].
  split; [exact Hr |]. split; [exact Hs |].
  apply (Hone "user-1" (mock_generateSenderKey 1)); reflexivity.
Defined.


(** *** The mocked provider *)

(** The mocked provider of the tests overwrites the first byte of a fixed
    16-byte id with the call count, which a [Uint8Array] stores modulo 256:
    two calls return the same distribution id exactly when their counts
    agree modulo 256.  So any 256 consecutive calls return pairwise
    distinct ids, and call [i + 256] repeats the id of call [i].  Ids have
    16 bytes and chain keys 32. *)
Theorem mock_ids_distinct_modulo_256 (i j : nat) :
  (genDistributionId (mock_generateSenderKey i)
   = genDistributionId (mock_generateSenderKey j)
   ↔ i `mod` 256 = j `mod` 256) ∧
  (i < j → j < i + 256 →
   genDistributionId (mock_generateSenderKey i)
   ≠ genDistributionId (mock_generateSenderKey j)) ∧
  genDistributionId (mock_generateSenderKey (i + 256))
  = genDistributionId (mock_generateSenderKey i) ∧
  length (genDistributionId (mock_generateSenderKey i)) = 16 ∧
  length (genChainKey (mock_generateSenderKey i)) = 32.
Proof.
  split; [apply mock_id_eq_iff |]. split.
  - intros Hlt Hwin Heq. symmetry in Heq.
    by apply (mock_id_window i j) in Heq.
  - split; [| done]. apply mock_id_eq_iff.
    pose proof (Nat.div_mod_eq (i + 256) 256).
    pose proof (Nat.div_mod_eq i 256).
    pose proof (Nat.mod_upper_bound (i + 256) 256).
    pose proof (Nat.mod_upper_bound i 256). lia.
Qed.

Lemma mock_ids_distinct_modulo_256_witness :
  genDistributionId (mock_generateSenderKey 1)
  ≠ genDistributionId (mock_generateSenderKey 256) ∧
  genDistributionId (mock_generateSenderKey 257)
  = genDistributionId (mock_generateSenderKey 1).
Proof.
  destruct (mock_ids_distinct_modulo_256 1 256) as (_ & Hwin & _).
  destruct (mock_ids_distinct_modulo_256 1 1) as (_ & _ & Hrep & _).
  split; [apply Hwin; lia | exact Hrep].
Defined.

End SenderKeys.

(** ** The encrypted store in IndexedDB *)

Module CryptoStore.

(** *** Collaborators *)

(** [getSodium()]: the three libsodium calls of the module.  Opening a box
    throws when authentication fails, which is [None] here. *)
Class Sodium := {
  crypto_generichash : nat → bytes → bytes → bytes;
  crypto_secretbox_easy : bytes → bytes → bytes → bytes;
  crypto_secretbox_open_easy : bytes → bytes → bytes → option bytes
}.

Definition crypto_secretbox_KEYBYTES : nat := 32.
Definition crypto_secretbox_NONCEBYTES : nat := 24.

(** The built-ins the module calls: [JSON] and the UTF-8 coders.
    [JSON.parse] throws on malformed text, which is [None] here. *)
Class Builtins := {
  JsValue : Type;
  JSON_stringify : JsValue → string;
  JSON_parse : string → option JsValue;
  TextEncoder_encode : string → bytes;
  TextDecoder_decode : bytes → string
}.

Inductive completion :=
  | Normal
  | Throws.

(** [./backup.js]: the codec of the in-memory crypto session.  A restore
    leaves some session behind whether it returns or throws. *)
Class Backup `{Builtins} := {
  Session : Type;
  buildBackupPayload : Session → JsValue;
  restoreCryptoFromPayload : JsValue → Session → completion * Session
}.

Section store.
Context `{Sodium} `{Backup}.

(** *** Data *)

Record StoredRecord := mkRecord {
  userId : string;
  encrypted : bytes;
  nonce : bytes;
  updatedAt : string
}.

(** The module variable [dbPromise]: still [null], a promise that resolved
    with the connection, or a promise that was rejected and is kept. *)
Inductive DbPromise :=
  | NoPromise
  | Opened
  | FailedOpen.

(** The object store "sessions" of database "haven-crypto" (key path
    [userId]), the module variable [dbPromise], the crypto session held in
    memory, and, as bookkeeping for the theorems, the payloads handed to
    [restoreCryptoFromPayload] so far. *)
Record World := mkWorld {
  sessions : gmap string StoredRecord;
  dbPromise : DbPromise;
  memory : Session;
  restoreLog : list JsValue
}.

(** What the browser does during one call: whether [indexedDB.open]
    succeeds if attempted and, if not, whether it throws on the spot or
    fails through [request.onerror]; whether [db.transaction] hands out a
    transaction (it throws otherwise); whether a write transaction
    completes and, if not, whether the error event of a failed request
    reaches [tx.onerror] or the transaction just aborts; whether the [get]
    request succeeds; the random bytes; the clock. *)
Record Browser := mkBrowser {
  open_succeeds : bool;
  open_throws : bool;
  transaction_opens : bool;
  transaction_completes : bool;
  write_error_event : bool;
  request_succeeds : bool;
  randombytes_buf : nat → bytes;
  now : string
}.

(** What a promise is rejected with.  [NullTxError] is the value of
    [tx.error] as [tx.onerror] reads it: null, because the transaction is
    aborted, and its error set, only after the event was dispatched. *)
Inductive Error :=
  | OpenError
  | OpenThrown
  | TransactionThrown
  | NullTxError
  | DecryptionError
  | SyntaxError
  | RestoreError.

(** How a promise ends: fulfilled, rejected, or never settled. *)
Inductive promise (A : Type) :=
  | Resolved (a : A)
  | Rejected (e : Error)
  | Pending.
Global Arguments Resolved {A} a.
Global Arguments Rejected {A} e.
Global Arguments Pending {A}.

(** *** Asynchronous code as world passing *)

Definition Async (A : Type) : Type := World → promise A * World.

Definition ret {A} (a : A) : Async A := fun w => (Resolved a, w).

Definition throw {A} (e : Error) : Async A := fun w => (Rejected e, w).

(** A promise that nothing settles. *)
Definition never {A} : Async A := fun w => (Pending, w).

Definition bind {A B} (m : Async A) (k : A → Async B) : Async B :=
  fun w =>
    match m w with
    | (Resolved a, w') => k a w'
    | (Rejected e, w') => (Rejected e, w')
    | (Pending, w') => (Pending, w')
    end.

(** [try { m } catch { handler }] *)
Definition tryCatch {A} (m : Async A) (handler : Async A) : Async A :=
  fun w =>
    match m w with
    | (Resolved a, w') => (Resolved a, w')
    | (Rejected _, w') => handler w'
    | (Pending, w') => (Pending, w')
    end.

Definition set_sessions (f : gmap string StoredRecord →
                             gmap string StoredRecord) : Async unit :=
  fun w => (Resolved tt,
            mkWorld (f (sessions w)) (dbPromise w) (memory w) (restoreLog w)).

Definition set_dbPromise (p : DbPromise) (w : World) : World :=
  mkWorld (sessions w) p (memory w) (restoreLog w).

Definition set_memory (m : Session) (w : World) : World :=
  mkWorld (sessions w) (dbPromise w) m (restoreLog w).

(** *** The module *)

Definition KEY_CONTEXT : bytes :=
  TextEncoder_encode "haven-local-crypto-store".

(** A promise already stored is handed out again, whether it resolved or
    was rejected.  Otherwise a new one is stored: [onsuccess] resolves it;
    [onerror] clears the variable and rejects it; an [indexedDB.open] that
    throws inside the executor rejects it and leaves it stored. *)
Definition openDb (env : Browser) : Async unit :=
  fun w =>
    match dbPromise w with
    | Opened => (Resolved tt, w)
    | FailedOpen => (Rejected OpenThrown, w)
    | NoPromise =>
        if open_succeeds env then (Resolved tt, set_dbPromise Opened w)
        else if open_throws env
             then (Rejected OpenThrown, set_dbPromise FailedOpen w)
             else (Rejected OpenError, set_dbPromise NoPromise w)
    end.

Definition deriveStorageKey (identityPrivateKey : bytes) : bytes :=
  crypto_generichash crypto_secretbox_KEYBYTES KEY_CONTEXT
                     identityPrivateKey.

(** [db.transaction(STORE_NAME, mode)] *)
Definition transaction (env : Browser) : Async unit :=
  if transaction_opens env then ret tt else throw TransactionThrown.

(** The promise around the write transaction: [put], then [oncomplete]
    resolves, or [onerror] rejects with [tx.error]; no handler is set for
    [onabort], so a transaction that aborts without an error event leaves
    the promise unsettled.  A failed transaction writes nothing. *)
Definition putRecord (env : Browser) (r : StoredRecord) : Async unit :=
  bind (transaction env) (fun _ =>
  if transaction_completes env
  then set_sessions (insert (userId r) r)
  else if write_error_event env then throw NullTxError else never).

Definition persistCryptoState (u : string) (identityPrivateKey : bytes)
    (env : Browser) : Async unit :=
  fun w =>
    let payload := buildBackupPayload (memory w) in
    let plaintext := TextEncoder_encode (JSON_stringify payload) in
    let key := deriveStorageKey identityPrivateKey in
    let nonce := randombytes_buf env crypto_secretbox_NONCEBYTES in
    let encrypted := crypto_secretbox_easy plaintext nonce key in
    bind (openDb env) (fun _ =>
    putRecord env (mkRecord u encrypted nonce (now env))) w.

(** The promise around the read: [onsuccess] resolves with the record or
    null, [onerror] resolves with null. *)
Definition getRecord (env : Browser) (u : string)
  : Async (option StoredRecord) :=
  bind (transaction env) (fun _ w =>
  (Resolved (if request_succeeds env then sessions w !! u else None), w)).

Definition secretbox_open (c n k : bytes) : Async bytes :=
  match crypto_secretbox_open_easy c n k with
  | Some plaintext => ret plaintext
  | None => throw DecryptionError
  end.

Definition parse (text : string) : Async JsValue :=
  match JSON_parse text with
  | Some v => ret v
  | None => throw SyntaxError
  end.

Definition restore (payload : JsValue) : Async unit :=
  fun w =>
    let '(c, m) := restoreCryptoFromPayload payload (memory w) in
    let w' := mkWorld (sessions w) (dbPromise w) m
                      (restoreLog w ++ [payload]) in
    match c with
    | Normal => (Resolved tt, w')
    | Throws => (Rejected RestoreError, w')
    end.

Definition loadCryptoState (u : string) (identityPrivateKey : bytes)
    (env : Browser) : Async bool :=
  bind (openDb env) (fun _ =>
  bind (getRecord env u) (fun record =>
  match record with
  | None => ret false
  | Some r =>
      tryCatch
        (let key := deriveStorageKey identityPrivateKey in
         bind (secretbox_open (encrypted r) (nonce r) key) (fun plaintext =>
         bind (parse (TextDecoder_decode plaintext)) (fun payload =>
         bind (restore payload) (fun _ =>
         ret true))))
        (ret false)
  end)).

(** [if (userId)]: an absent argument and the empty string are falsy. *)
Definition truthy (userId : option string) : bool :=
  match userId with
  | Some u => if decide (u = ""%string) then false else true
  | None => false
  end.

(** The function returns once the request is issued; the deletion lands
    when the transaction commits. *)
Definition clearCryptoStore (userId : option string) (env : Browser)
  : Async unit :=
  tryCatch
    (bind (openDb env) (fun _ =>
     bind (transaction env) (fun _ =>
     if transaction_completes env then
       if truthy userId
       then set_sessions (delete (default ""%string userId))
       else set_sessions (fun _ => ∅)
     else ret tt)))
    (ret tt).

(** *** What the theorems ask of the collaborators and of the browser *)

(** The connection is there: already open, or not yet asked for and
    [indexedDB.open] succeeds. *)
Definition opens (env : Browser) (w : World) : bool :=
  match dbPromise w with
  | Opened => true
  | NoPromise => open_succeeds env
  | FailedOpen => false
  end.

(** What [openDb] rejects with, and what it leaves in [dbPromise], when
    the connection is not there. *)
Definition openFailure (env : Browser) (w : World) : Error * DbPromise :=
  match dbPromise w with
  | FailedOpen => (OpenThrown, FailedOpen)
  | _ => if open_throws env then (OpenThrown, FailedOpen)
         else (OpenError, NoPromise)
  end.

Definition hash_has_requested_length : Prop :=
  ∀ n msg k, length (crypto_generichash n msg k) = n.

Definition secretbox_opens_with_same_key : Prop :=
  ∀ m n k,
    crypto_secretbox_open_easy (crypto_secretbox_easy m n k) n k = Some m.

Definition secretbox_rejects_other_key : Prop :=
  ∀ m n k k',
    length k = crypto_secretbox_KEYBYTES →
    length k' = crypto_secretbox_KEYBYTES →
    k ≠ k' →
    crypto_secretbox_open_easy (crypto_secretbox_easy m n k) n k' = None.

Definition utf8_roundtrip : Prop :=
  ∀ s, TextDecoder_decode (TextEncoder_encode s) = s.

Definition payload_json_roundtrip : Prop :=
  ∀ m, JSON_parse (JSON_stringify (buildBackupPayload m))
       = Some (buildBackupPayload m).

(** Restoring a snapshot replaces the session, whatever it was. *)
Definition restore_replaces_session : Prop :=
  ∀ m m', restoreCryptoFromPayload (buildBackupPayload m) m' = (Normal, m).

(** The four ways in which [loadCryptoState] finds no usable backup. *)
Definition noUsableBackup (u : string) (identityPrivateKey : bytes)
    (env : Browser) (w : World) : Prop :=
  sessions w !! u = None ∨
  request_succeeds env = false ∨
  (∃ r, sessions w !! u = Some r ∧
        crypto_secretbox_open_easy (encrypted r) (nonce r)
          (deriveStorageKey identityPrivateKey) = None) ∨
  (∃ r plaintext,
        sessions w !! u = Some r ∧
        crypto_secretbox_open_easy (encrypted r) (nonce r)
          (deriveStorageKey identityPrivateKey) = Some plaintext ∧
        JSON_parse (TextDecoder_decode plaintext) = None).

(** The world in which nothing was ever persisted for [u]. *)
Definition neverPersisted (u : string) (w : World) : World :=
  mkWorld (delete u (sessions w)) (dbPromise w) (memory w) (restoreLog w).

(** The record [persistCryptoState] puts. *)
Definition recordFor (u : string) (identityPrivateKey : bytes) (env : Browser)
    (w : World) : StoredRecord :=
  let n := randombytes_buf env crypto_secretbox_NONCEBYTES in
  mkRecord u
    (crypto_secretbox_easy
       (TextEncoder_encode (JSON_stringify (buildBackupPayload (memory w))))
       n (deriveStorageKey identityPrivateKey))
    n (now env).

End store.

Section store_facts.
Context `{Sodium} `{Backup}.

Lemma set_dbPromise_id (w : World) (p : DbPromise) :
  dbPromise w = p → set_dbPromise p w = w.
Proof. destruct w. simpl. by intros ->. Qed.

Lemma openDb_opens (env : Browser) (w : World) :
  opens env w = true → openDb env w = (Resolved tt, set_dbPromise Opened w).
Proof.
  unfold opens, openDb. destruct (dbPromise w) eqn:Hp; simpl.
  - by intros ->.
  - intros _. by rewrite set_dbPromise_id.
  - done.
Qed.

Lemma openDb_fails (env : Browser) (w : World) :
  opens env w = false →
  openDb env w
  = (Rejected (openFailure env w).1, set_dbPromise (openFailure env w).2 w).
Proof.
  unfold opens, openDb, openFailure. destruct (dbPromise w) eqn:Hp; simpl.
  - intros ->. by destruct (open_throws env).
  - done.
  - intros _. by rewrite set_dbPromise_id.
Qed.

Lemma persist_succeeds (u : string) (K : bytes) (env : Browser) (w : World) :
  opens env w = true →
  transaction_opens env = true →
  transaction_completes env = true →
  persistCryptoState u K env w
  = (Resolved tt,
     mkWorld (<[u := recordFor u K env w]> (sessions w)) Opened (memory w)
             (restoreLog w)).
Proof.
  intros Ho Ht Hc. unfold persistCryptoState, bind.
  rewrite (openDb_opens env w Ho). unfold putRecord, bind, transaction.
  rewrite Ht, Hc. reflexivity.
Qed.

(** [loadCryptoState] with the connection open and the read transaction
    started, spelled out case by case. *)
Lemma load_opened (u : string) (K : bytes) (env : Browser) (w : World) :
  opens env w = true →
  transaction_opens env = true →
  loadCryptoState u K env w =
  match (if request_succeeds env then sessions w !! u else None) with
  | None => (Resolved false, set_dbPromise Opened w)
  | Some r =>
      match crypto_secretbox_open_easy (encrypted r) (nonce r)
              (deriveStorageKey K) with
      | None => (Resolved false, set_dbPromise Opened w)
      | Some plaintext =>
          match JSON_parse (TextDecoder_decode plaintext) with
          | None => (Resolved false, set_dbPromise Opened w)
          | Some payload =>
              let cm := restoreCryptoFromPayload payload (memory w) in
              (Resolved (match cm.1 with Normal => true | Throws => false end),
               mkWorld (sessions w) Opened cm.2 (restoreLog w ++ [payload]))
          end
      end
  end.
Proof.
  intros Ho Ht. unfold loadCryptoState, bind at 1.
  rewrite (openDb_opens env w Ho).
  unfold getRecord, transaction, bind at 1. rewrite Ht.
  unfold bind at 1. cbn [ret set_dbPromise sessions].
  destruct (if request_succeeds env then sessions w !! u else None)
    as [r |]; [| done].
  unfold tryCatch, bind, secretbox_open, parse.
  destruct (crypto_secretbox_open_easy _ _ _) as [plaintext |]; [| done].
  cbn [ret]. destruct (JSON_parse _) as [payload |]; [| done].
  cbn [ret]. unfold restore, set_dbPromise.
  cbn [memory sessions dbPromise restoreLog].
  destruct (restoreCryptoFromPayload payload (memory w)) as [[] m]; done.
Qed.

Lemma load_open_fails (u : string) (K : bytes) (env : Browser) (w : World) :
  opens env w = false →
  loadCryptoState u K env w
  = (Rejected (openFailure env w).1, set_dbPromise (openFailure env w).2 w).
Proof.
  intros Ho. unfold loadCryptoState, bind at 1.
  by rewrite (openDb_fails env w Ho).
Qed.

Lemma load_transaction_throws (u : string) (K : bytes) (env : Browser)
    (w : World) :
  opens env w = true →
  transaction_opens env = false →
  loadCryptoState u K env w
  = (Rejected TransactionThrown, set_dbPromise Opened w).
Proof.
  intros Ho Ht. unfold loadCryptoState, bind at 1.
  rewrite (openDb_opens env w Ho).
  unfold getRecord, transaction, bind at 1. by rewrite Ht.
Qed.

(** [persistCryptoState] and [clearCryptoStore], spelled out case by
    case. *)
Lemma persist_cases (u : string) (K : bytes) (env : Browser) (w : World) :
  persistCryptoState u K env w
  = if opens env w then
      if transaction_opens env then
        if transaction_completes env then
          (Resolved tt,
           mkWorld (<[u := recordFor u K env w]> (sessions w)) Opened
                   (memory w) (restoreLog w))
        else if write_error_event env
             then (Rejected NullTxError, set_dbPromise Opened w)
             else (Pending, set_dbPromise Opened w)
      else (Rejected TransactionThrown, set_dbPromise Opened w)
    else (Rejected (openFailure env w).1,
          set_dbPromise (openFailure env w).2 w).
Proof.
  unfold persistCryptoState, bind at 1.
  destruct (opens env w) eqn:Ho.
  - rewrite (openDb_opens env w Ho). unfold putRecord, bind, transaction.
    by destruct (transaction_opens env), (transaction_completes env),
         (write_error_event env).
  - by rewrite (openDb_fails env w Ho).
Qed.

Lemma clear_cases (userId : option string) (env : Browser) (w : World) :
  clearCryptoStore userId env w
  = if opens env w then
      if transaction_opens env && transaction_completes env then
        (Resolved tt,
         mkWorld (if truthy userId
                  then delete (default ""%string userId) (sessions w)
                  else ∅) Opened (memory w) (restoreLog w))
      else (Resolved tt, set_dbPromise Opened w)
    else (Resolved tt, set_dbPromise (openFailure env w).2 w).
Proof.
  unfold clearCryptoStore, tryCatch, bind at 1.
  destruct (opens env w) eqn:Ho.
  - rewrite (openDb_opens env w Ho). unfold bind, transaction.
    destruct (transaction_opens env), (transaction_completes env); try done.
    by destruct (truthy userId).
  - by rewrite (openDb_fails env w Ho).
Qed.

(** *** Round trip *)

(** C2: with a working store (the connection opens, the write transaction
    completes, the read succeeds), a cipher that opens what it sealed, and a
    codec and JSON that round-trip the snapshot, [persistCryptoState u K]
    resolves and a later [loadCryptoState u K] resolves to [true] and leaves
    in memory exactly the session that was there at persist time, whatever
    the memory held in between. *)
Theorem persist_then_load_restores (u : string) (K : bytes)
    (envP envL : Browser) (w : World) (between : Session) :
  secretbox_opens_with_same_key →
  utf8_roundtrip →
  payload_json_roundtrip →
  restore_replaces_session →
  opens envP w = true →
  transaction_opens envP = true →
  transaction_completes envP = true →
  transaction_opens envL = true →
  request_succeeds envL = true →
  let rp := persistCryptoState u K envP w in
  let rl := loadCryptoState u K envL (set_memory between rp.2) in
  rp.1 = Resolved tt ∧
  rl.1 = Resolved true ∧
  memory rl.2 = memory w ∧
  sessions rl.2 = sessions rp.2.
Proof.
  intros Hbox Hutf Hjson Hcodec Ho Ht Hc HtL Hreq rp rl.
  subst rl rp. rewrite (persist_succeeds u K envP w Ho Ht Hc).
  cbn [fst snd]. split; [done |].
  rewrite load_opened by done. rewrite Hreq.
  cbn [set_memory sessions memory dbPromise restoreLog].
  rewrite lookup_insert_eq. unfold recordFor. cbn [encrypted nonce].
  rewrite Hbox, Hutf, Hjson, Hcodec. done.
Qed.

(** Whatever [loadCryptoState] does, it hands a payload to the restore
    function only after the read, the decryption and the parse succeeded. *)
Lemma restore_only_after_parse (u : string) (K : bytes) (env : Browser)
    (w : World) :
  restoreLog (loadCryptoState u K env w).2 = restoreLog w ∨
  ∃ r plaintext payload,
    sessions w !! u = Some r ∧
    crypto_secretbox_open_easy (encrypted r) (nonce r) (deriveStorageKey K)
    = Some plaintext ∧
    JSON_parse (TextDecoder_decode plaintext) = Some payload ∧
    restoreLog (loadCryptoState u K env w).2 = restoreLog w ++ [payload].
Proof.
  destruct (opens env w) eqn:Ho;
    [| left; by rewrite load_open_fails].
  destruct (transaction_opens env) eqn:Ht;
    [| left; by rewrite load_transaction_throws].
  rewrite load_opened by done.
  destruct (request_succeeds env); [| by left].
  destruct (sessions w !! u) as [r |]; [| by left].
  destruct (crypto_secretbox_open_easy _ _ _) as [pt |] eqn:Hopen;
    [| by left].
  destruct (JSON_parse _) as [payload |] eqn:Hparse; [| by left].
  right. by exists r, pt, payload.
Qed.

(** *** Loading with another key *)

(** C7: after [persistCryptoState u K1] has resolved, [loadCryptoState u K2]
    with [K2 ≠ K1] resolves to [false] and leaves the world as it found it:
    the memory is untouched and nothing was handed to
    [restoreCryptoFromPayload], which in any call receives a payload only
    after the record was read, decrypted and parsed.  The cipher is asked to
    refuse a box under another 32-byte key, and the keyed hash not to
    collide on [K1], [K2]. *)
Theorem load_with_other_key_fails (u : string) (K1 K2 : bytes)
    (envP envL : Browser) (w : World) (between : Session) :
  hash_has_requested_length →
  secretbox_rejects_other_key →
  K1 ≠ K2 →
  (K1 ≠ K2 → deriveStorageKey K1 ≠ deriveStorageKey K2) →
  opens envP w = true →
  transaction_opens envP = true →
  transaction_completes envP = true →
  transaction_opens envL = true →
  let rp := persistCryptoState u K1 envP w in
  let w1 := set_memory between rp.2 in
  let rl := loadCryptoState u K2 envL w1 in
  rp.1 = Resolved tt ∧
  rl = (Resolved false, w1) ∧
  memory rl.2 = between ∧
  restoreLog rl.2 = restoreLog w1 ∧
  (∀ env' w',
     restoreLog (loadCryptoState u K2 env' w').2 = restoreLog w' ∨
     ∃ r plaintext payload,
       sessions w' !! u = Some r ∧
       crypto_secretbox_open_easy (encrypted r) (nonce r)
         (deriveStorageKey K2) = Some plaintext ∧
       JSON_parse (TextDecoder_decode plaintext) = Some payload ∧
       restoreLog (loadCryptoState u K2 env' w').2
       = restoreLog w' ++ [payload]).
Proof.
  intros Hlen Hbox Hne Hcoll Ho Ht Hc HtL rp w1 rl.
  assert (Honly := restore_only_after_parse u K2).
  subst rl w1 rp. rewrite (persist_succeeds u K1 envP w Ho Ht Hc).
  cbn [fst snd]. split; [done |].
  cut (loadCryptoState u K2 envL
         (set_memory between
            (mkWorld (<[u := recordFor u K1 envP w]> (sessions w)) Opened
                     (memory w) (restoreLog w)))
       = (Resolved false,
          set_memory between
            (mkWorld (<[u := recordFor u K1 envP w]> (sessions w)) Opened
                     (memory w) (restoreLog w)))).
  { intros ->. done. }
  rewrite load_opened by done.
  cbn [set_memory set_dbPromise sessions memory dbPromise restoreLog].
  destruct (request_succeeds envL); [| done].
  rewrite lookup_insert_eq. unfold recordFor. cbn [encrypted nonce].
  rewrite Hbox; [done | apply Hlen | apply Hlen | by apply Hcoll].
Qed.

(** *** Loading when there is nothing usable *)

(** Once the connection is there and the read transaction has started,
    [loadCryptoState] resolves to [false], leaving store, memory and
    restore log alone, whenever there is no record for the user, the read
    request fails, the box does not open, or the text does not parse; that
    is what it does in the world where nothing was ever persisted for the
    user. *)
Lemma load_without_usable_backup (u : string) (K : bytes) (env : Browser)
    (w : World) :
  opens env w = true → transaction_opens env = true →
  noUsableBackup u K env w →
  loadCryptoState u K env w = (Resolved false, set_dbPromise Opened w) ∧
  loadCryptoState u K env (neverPersisted u w)
  = (Resolved false, set_dbPromise Opened (neverPersisted u w)).
Proof.
  intros Ho Ht Hcase. split.
  - rewrite load_opened by done.
    destruct Hcase as [Hnone | [Hreq | [(r & Hr & Hopen)
                                       | (r & pt & Hr & Hopen & Hparse)]]].
    + rewrite Hnone. by destruct (request_succeeds env).
    + by rewrite Hreq.
    + rewrite Hr. destruct (request_succeeds env); [| done].
      by rewrite Hopen.
    + rewrite Hr. destruct (request_succeeds env); [| done].
      by rewrite Hopen, Hparse.
  - rewrite load_opened by done. cbn [neverPersisted sessions].
    rewrite lookup_delete_eq. by destruct (request_succeeds env).
Qed.

(** *** A failed write *)

(** C6, as the module does it: when the write transaction fails through
    the error event of a failed request, [tx.onerror] rejects the promise
    of [persistCryptoState], so the failure reaches the caller.  Whenever
    the write transaction does not complete, the record stored before (if
    any) and the session in memory are left as they were. *)
Theorem persist_rejects_on_transaction_failure (u : string) (K : bytes)
    (env : Browser) (w : World) :
  opens env w = true →
  transaction_opens env = true →
  transaction_completes env = false →
  let r := persistCryptoState u K env w in
  (write_error_event env = true → r.1 = Rejected NullTxError) ∧
  sessions r.2 = sessions w ∧
  memory r.2 = memory w.
Proof.
  intros Ho Ht Hc. unfold persistCryptoState, bind.
  rewrite (openDb_opens env w Ho). unfold putRecord, bind, transaction.
  rewrite Ht, Hc. by destruct (write_error_event env).
Qed.

(** *** The storage key *)

Lemma persist_sessions (u : string) (K : bytes) (env : Browser) (w : World) :
  sessions (persistCryptoState u K env w).2 = sessions w ∨
  sessions (persistCryptoState u K env w).2
  = <[u := recordFor u K env w]> (sessions w).
Proof.
  unfold persistCryptoState, bind, openDb, putRecord, bind, transaction.
  destruct (dbPromise w), (open_succeeds env), (open_throws env),
    (transaction_opens env), (transaction_completes env),
    (write_error_event env); cbn; auto.
Qed.

Lemma load_sessions (u : string) (K : bytes) (env : Browser) (w : World) :
  sessions (loadCryptoState u K env w).2 = sessions w.
Proof.
  destruct (opens env w) eqn:Ho.
  - destruct (transaction_opens env) eqn:Ht.
    + rewrite load_opened by done.
      repeat (case_match; try done).
    + by rewrite load_transaction_throws.
  - by rewrite load_open_fails.
Qed.

(** C8: [deriveStorageKey] is the keyed hash of the fixed context
    "haven-local-crypto-store" under the identity private key, asked for 32
    bytes, the cipher's key length; it has that length when the hash
    honours the requested length, and equal keys derive equal storage keys.
    The derived key is not stored: [persistCryptoState] either leaves the
    object store alone or puts the one record (user id, ciphertext, nonce,
    timestamp) in which the key only keys the cipher, and
    [loadCryptoState] writes nothing. *)
Theorem deriveStorageKey_spec (K : bytes) :
  hash_has_requested_length →
  deriveStorageKey K
  = crypto_generichash 32 (TextEncoder_encode "haven-local-crypto-store") K ∧
  length (deriveStorageKey K) = crypto_secretbox_KEYBYTES ∧
  crypto_secretbox_KEYBYTES = 32 ∧
  (∀ K', K' = K → deriveStorageKey K' = deriveStorageKey K) ∧
  (∀ u env w,
     sessions (persistCryptoState u K env w).2 = sessions w ∨
     sessions (persistCryptoState u K env w).2
     = <[u := mkRecord u
               (crypto_secretbox_easy
                  (TextEncoder_encode
                     (JSON_stringify (buildBackupPayload (memory w))))
                  (randombytes_buf env crypto_secretbox_NONCEBYTES)
                  (deriveStorageKey K))
               (randombytes_buf env crypto_secretbox_NONCEBYTES)
               (now env)]> (sessions w)) ∧
  (∀ u env w, sessions (loadCryptoState u K env w).2 = sessions w).
Proof.
  intros Hlen. split; [done |]. split; [apply Hlen |]. split; [done |].
  split; [by intros K' -> |]. split.
  - intros u env w. apply persist_sessions.
  - intros u env w. apply load_sessions.
Qed.

(** *** Clearing *)

(** C10: [clearCryptoStore] never throws or rejects: whatever the store
    does, it resolves, and it never touches the memory.  With the connection
    there and the transaction committed, a user id (user ids are not empty)
    deletes exactly that user's record, every other record staying as it
    was, and no id empties the object store; when the connection or the
    transaction fails, the store is left as it was. *)
Theorem clearCryptoStore_spec (userId : option string) (env : Browser)
    (w : World) :
  let r := clearCryptoStore userId env w in
  r.1 = Resolved tt ∧
  memory r.2 = memory w ∧
  (opens env w = true → transaction_opens env = true →
   transaction_completes env = true →
   (∀ u, userId = Some u → u ≠ ""%string →
         sessions r.2 = delete u (sessions w) ∧
         sessions r.2 !! u = None ∧
         ∀ u', u' ≠ u → sessions r.2 !! u' = sessions w !! u') ∧
   (userId = None → sessions r.2 = ∅)) ∧
  (opens env w = false ∨ transaction_opens env = false ∨
   transaction_completes env = false →
   sessions r.2 = sessions w).
Proof.
  cbv zeta. rewrite clear_cases.
  destruct (opens env w) eqn:Ho, (transaction_opens env) eqn:Ht,
    (transaction_completes env) eqn:Hc; cbn [andb fst snd memory sessions
                                             set_dbPromise];
    (split; [done | split; [done | split]]);
    try (intros; discriminate); try done;
    try (intros [|[|]]; discriminate).
  intros _ _ _. split.
  - intros u -> Hu. unfold truthy. rewrite decide_False by done. cbn.
    split; [done |]. split; [apply lookup_delete_eq |].
    intros u' Hne. by rewrite lookup_delete_ne.
  - by intros ->.
Qed.

End store_facts.

(** *** Further facts about the module *)

Section store_operations.
Context `{Sodium} `{Backup}.


(** The connection is opened once and kept: after an [openDb] that
    resolved, every later [openDb] resolves without consulting
    [indexedDB.open] and changes nothing.  An open that failed through
    [request.onerror] is not kept: the next [openDb] tries again and
    resolves as soon as the database opens.  An [indexedDB.open] that threw
    is kept: every later [openDb] is rejected, whatever the browser would
    do. *)
Theorem openDb_cached_and_retried (env env' : Browser) (w : World) :
  ((openDb env w).1 = Resolved tt →
   openDb env' (openDb env w).2 = (Resolved tt, (openDb env w).2)) ∧
  ((openDb env w).1 = Rejected OpenError →
   dbPromise (openDb env w).2 = NoPromise ∧
   (open_succeeds env' = true →
    openDb env' (openDb env w).2 = (Resolved tt, set_dbPromise Opened w))) ∧
  ((openDb env w).1 = Rejected OpenThrown →
   dbPromise (openDb env w).2 = FailedOpen ∧
   openDb env' (openDb env w).2 = (Rejected OpenThrown, (openDb env w).2)).
Proof.
  unfold openDb.
  destruct (dbPromise w) eqn:Hp, (open_succeeds env) eqn:Hopen,
    (open_throws env) eqn:Hthrow;
    cbn [fst snd set_dbPromise dbPromise]; rewrite ?Hp;
    (split; [| split]); intros Hr; try discriminate; try done.
  all: split; [done |]; intros ->; done.
Qed.

(** A write is all or nothing: [persistCryptoState] either resolves, having
    put exactly the one record of the user, or leaves the store as it was;
    then its promise is rejected, with the error that tells which step
    failed, or, when the write transaction aborts without an error event,
    is never settled.  The session in memory and the restore log are never
    touched. *)
Theorem persist_all_or_nothing (u : string) (K : bytes) (env : Browser)
    (w : World) :
  let r := persistCryptoState u K env w in
  ((r.1 = Resolved tt ∧
    sessions r.2 = <[u := recordFor u K env w]> (sessions w) ∧
    opens env w = true ∧ transaction_opens env = true ∧
    transaction_completes env = true) ∨
   (sessions r.2 = sessions w ∧
    ((r.1 = Rejected (openFailure env w).1 ∧ opens env w = false) ∨
     (r.1 = Rejected TransactionThrown ∧ transaction_opens env = false) ∨
     (r.1 = Rejected NullTxError ∧ transaction_completes env = false ∧
      write_error_event env = true) ∨
     (r.1 = Pending ∧ transaction_completes env = false ∧
      write_error_event env = false)))) ∧
  memory r.2 = memory w ∧
  restoreLog r.2 = restoreLog w.
Proof.
  cbv zeta. rewrite persist_cases.
  destruct (opens env w), (transaction_opens env),
    (transaction_completes env), (write_error_event env); cbn;
    split; auto 10.
Qed.

(** Last writer wins: of two successful [persistCryptoState] calls for the
    same user only the second record remains, built from the memory and the
    key of the second call; the records of all other users are as before
    the first call. *)
Theorem persist_overwrites (u : string) (K1 K2 : bytes) (env1 env2 : Browser)
    (w : World) (m : Session) :
  opens env1 w = true →
  transaction_opens env1 = true → transaction_completes env1 = true →
  transaction_opens env2 = true → transaction_completes env2 = true →
  let w1 := (persistCryptoState u K1 env1 w).2 in
  let r2 := persistCryptoState u K2 env2 (set_memory m w1) in
  r2.1 = Resolved tt ∧
  sessions r2.2 = <[u := recordFor u K2 env2 (set_memory m w)]> (sessions w) ∧
  sessions r2.2 !! u = Some (recordFor u K2 env2 (set_memory m w)) ∧
  (∀ u', u' ≠ u → sessions r2.2 !! u' = sessions w !! u').
Proof.
  intros Ho Ht1 Hc1 Ht2 Hc2. cbv zeta.
  rewrite (persist_cases u K1), Ho, Ht1, Hc1. cbn [snd].
  rewrite (persist_cases u K2), Ht2, Hc2. cbn.
  rewrite insert_insert_eq. unfold recordFor. cbn [memory set_memory].
  repeat split; try done.
  - apply lookup_insert_eq.
  - intros u' Hne. by rewrite lookup_insert_ne.
Qed.

(** A [persistCryptoState] that was rejected because the open request
    failed (through [request.onerror]) can simply be repeated: once the
    database opens, the repeated call stores the record as if the first
    call had never been made.  When instead [indexedDB.open] threw, the
    rejected promise is kept and the repeated call is rejected too,
    whatever the browser would do. *)
Theorem persist_retry_after_open_failure (u : string) (K : bytes)
    (env1 env2 : Browser) (w : World) :
  dbPromise w = NoPromise →
  open_succeeds env1 = false →
  let r1 := persistCryptoState u K env1 w in
  (open_throws env1 = false →
   open_succeeds env2 = true →
   transaction_opens env2 = true → transaction_completes env2 = true →
   r1.1 = Rejected OpenError ∧
   persistCryptoState u K env2 r1.2 = persistCryptoState u K env2 w ∧
   (persistCryptoState u K env2 r1.2).1 = Resolved tt ∧
   sessions (persistCryptoState u K env2 r1.2).2 !! u
   = Some (recordFor u K env2 w)) ∧
  (open_throws env1 = true →
   r1.1 = Rejected OpenThrown ∧
   (persistCryptoState u K env2 r1.2).1 = Rejected OpenThrown ∧
   sessions (persistCryptoState u K env2 r1.2).2 = sessions w).
Proof.
  intros Hp Ho1. cbv zeta.
  assert (Hr1 : persistCryptoState u K env1 w
                = if open_throws env1
                  then (Rejected OpenThrown, set_dbPromise FailedOpen w)
                  else (Rejected OpenError, w)).
  { rewrite persist_cases. unfold opens, openFailure. rewrite Hp, Ho1.
    destruct (open_throws env1); cbn [fst snd]; [done |].
    by rewrite (set_dbPromise_id w NoPromise Hp). }
  rewrite Hr1. split; intros Hthrow; rewrite Hthrow; cbn [fst snd].
  - intros Ho2 Ht Hc.
    rewrite !persist_cases. unfold opens. rewrite Hp, Ho2, Ht, Hc.
    cbn. repeat split; try done. apply lookup_insert_eq.
  - rewrite persist_cases. unfold opens, openFailure, set_dbPromise.
    cbn. done.
Qed.

(** [loadCryptoState] reads the record of its own user and nothing else of
    the store: two worlds that agree on that record, the connection, the
    memory and the restore log give the same settlement, the same memory and
    the same log. *)
Theorem load_reads_only_own_record (u : string) (K : bytes) (env : Browser)
    (w1 w2 : World) :
  sessions w1 !! u = sessions w2 !! u →
  dbPromise w1 = dbPromise w2 →
  memory w1 = memory w2 →
  restoreLog w1 = restoreLog w2 →
  (loadCryptoState u K env w1).1 = (loadCryptoState u K env w2).1 ∧
  memory (loadCryptoState u K env w1).2
  = memory (loadCryptoState u K env w2).2 ∧
  restoreLog (loadCryptoState u K env w1).2
  = restoreLog (loadCryptoState u K env w2).2.
Proof.
  intros Hrec Hp Hm Hlog.
  assert (Ho : opens env w1 = opens env w2) by (unfold opens; by rewrite Hp).
  destruct (opens env w2) eqn:Ho2.
  - destruct (transaction_opens env) eqn:Ht.
    + rewrite !load_opened by done. rewrite Hrec, Hm, Hlog.
      repeat (case_match; try done).
    + rewrite !load_transaction_throws by done. cbn. done.
  - rewrite !load_open_fails by done. unfold openFailure. rewrite Hp.
    cbn. done.
Qed.

(** [loadCryptoState] resolves to [true] only when the record was there and
    read, the box opened, the text parsed and the restore returned
    normally; the memory is then what the restore produced and the payload
    is the one handed over. *)
Theorem load_true_only_after_restore (u : string) (K : bytes) (env : Browser)
    (w : World) :
  (loadCryptoState u K env w).1 = Resolved true →
  ∃ r plaintext payload m',
    request_succeeds env = true ∧
    sessions w !! u = Some r ∧
    crypto_secretbox_open_easy (encrypted r) (nonce r) (deriveStorageKey K)
    = Some plaintext ∧
    JSON_parse (TextDecoder_decode plaintext) = Some payload ∧
    restoreCryptoFromPayload payload (memory w) = (Normal, m') ∧
    memory (loadCryptoState u K env w).2 = m' ∧
    restoreLog (loadCryptoState u K env w).2 = restoreLog w ++ [payload].
Proof.
  destruct (opens env w) eqn:Ho;
    [| by rewrite load_open_fails].
  destruct (transaction_opens env) eqn:Ht;
    [| by rewrite load_transaction_throws].
  rewrite load_opened by done.
  destruct (request_succeeds env); [| done].
  destruct (sessions w !! u) as [r |]; [| done].
  destruct (crypto_secretbox_open_easy _ _ _) as [pt |] eqn:Hopen; [| done].
  destruct (JSON_parse _) as [payload |] eqn:Hparse; [| done].
  destruct (restoreCryptoFromPayload payload (memory w)) as [[] m'] eqn:Hr;
    cbn; [| done].
  intros _. by exists r, pt, payload, m'.
Qed.

(** A restore that throws is swallowed like a failed decryption:
    [loadCryptoState] resolves to [false].  Nothing is rolled back: the
    memory is left as the interrupted restore left it. *)
Theorem load_swallows_restore_failure (u : string) (K : bytes)
    (env : Browser) (w : World) (r : StoredRecord) (plaintext : bytes)
    (payload : JsValue) (m' : Session) :
  opens env w = true →
  transaction_opens env = true →
  request_succeeds env = true →
  sessions w !! u = Some r →
  crypto_secretbox_open_easy (encrypted r) (nonce r) (deriveStorageKey K)
  = Some plaintext →
  JSON_parse (TextDecoder_decode plaintext) = Some payload →
  restoreCryptoFromPayload payload (memory w) = (Throws, m') →
  loadCryptoState u K env w
  = (Resolved false,
     mkWorld (sessions w) Opened m' (restoreLog w ++ [payload])).
Proof.
  intros Ho Ht Hreq Hr Hopen Hparse Hrestore.
  rewrite load_opened by done.
  by rewrite Hreq, Hr, Hopen, Hparse, Hrestore.
Qed.

(** After a [clearCryptoStore] that went through, [loadCryptoState] finds
    nothing: for the cleared user when a non-empty id was given, for every
    user when none was given.  It resolves to [false] and leaves the memory
    alone. *)
Theorem clear_then_load_finds_nothing (userId : option string)
    (u : string) (K : bytes) (envC envL : Browser) (w : World) :
  opens envC w = true →
  transaction_opens envC = true → transaction_completes envC = true →
  transaction_opens envL = true →
  userId = None ∨ userId = Some u →
  let w1 := (clearCryptoStore userId envC w).2 in
  loadCryptoState u K envL w1 = (Resolved false, w1) ∧
  memory w1 = memory w.
Proof.
  intros Ho Ht Hc HtL Hid. cbv zeta.
  rewrite clear_cases, Ho, Ht, Hc. cbn [andb snd memory].
  split; [| done].
  rewrite load_opened by done.
  cbn [sessions set_dbPromise dbPromise memory restoreLog].
  assert (Hnone : (if truthy userId
                   then delete (default ""%string userId) (sessions w)
                   else ∅) !! u = None).
  { destruct (truthy userId) eqn:Htr; [| apply lookup_empty].
    destruct Hid as [-> | ->]; [done |]. cbn. apply lookup_delete_eq. }
  rewrite Hnone. by destruct (request_succeeds envL).
Qed.

(** Clearing a user who has no record changes nothing in the store. *)
Theorem clear_missing_user_is_noop (u : string) (env : Browser) (w : World) :
  u ≠ ""%string →
  sessions w !! u = None →
  sessions (clearCryptoStore (Some u) env w).2 = sessions w.
Proof.
  intros Hu Hnone. rewrite clear_cases.
  destruct (opens env w), (transaction_opens env),
    (transaction_completes env); cbn; try done.
  unfold truthy. rewrite decide_False by done. cbn. by apply delete_id.
Qed.

End store_operations.

(** *** A small instance of the collaborators

    A cipher that tags the box with key and nonce, a hash that truncates,
    ASCII coders, and a session that is its own snapshot: enough to run the
    module and to see that the assumptions above can be met together. *)

Definition toy_generichash (n : nat) (msg k : bytes) : bytes :=
  take n (k ++ msg ++ replicate n 0%Z).

Definition toy_secretbox_easy (m n k : bytes) : bytes := k ++ n ++ m.

Definition toy_secretbox_open_easy (c n k : bytes) : option bytes :=
  if decide (take (length k + length n) c = k ++ n)
  then Some (drop (length k + length n) c)
  else None.

Definition toy_encode (s : string) : bytes :=
  (fun a => Z.of_nat (nat_of_ascii a)) <$> list_ascii_of_string s.

Definition toy_decode (b : bytes) : string :=
  string_of_list_ascii ((fun z => ascii_of_nat (Z.to_nat z)) <$> b).

#[local] Instance toySodium : Sodium := {|
  crypto_generichash := toy_generichash;
  crypto_secretbox_easy := toy_secretbox_easy;
  crypto_secretbox_open_easy := toy_secretbox_open_easy
|}.

#[local] Instance toyBuiltins : Builtins := {|
  JsValue := string;
  JSON_stringify := fun v => v;
  JSON_parse := fun text => Some text;
  TextEncoder_encode := toy_encode;
  TextDecoder_decode := toy_decode
|}.

#[local] Instance toyBackup : Backup := {|
  Session := string;
  buildBackupPayload := fun m => m;
  restoreCryptoFromPayload := fun payload _ => (Normal, payload)
|}.

Definition workingEnv : Browser :=
  mkBrowser true false true true false true (fun n => replicate n 7%Z)
            "2024-05-01T12:00:00.000Z".

(** The open request fails through [request.onerror]. *)
Definition noDatabaseEnv : Browser :=
  mkBrowser false false true true false true (fun n => replicate n 7%Z)
            "2024-05-01T12:00:00.000Z".

(** [indexedDB.open] throws. *)
Definition throwingOpenEnv : Browser :=
  mkBrowser false true true true false true (fun n => replicate n 7%Z)
            "2024-05-01T12:00:00.000Z".

(** [db.transaction] throws. *)
Definition noTransactionEnv : Browser :=
  mkBrowser true false false true false true (fun n => replicate n 7%Z)
            "2024-05-01T12:00:00.000Z".

(** The [put] request fails and its error event reaches [tx.onerror]. *)
Definition failingWriteEnv : Browser :=
  mkBrowser true false true false true true (fun n => replicate n 7%Z)
            "2024-05-01T12:00:00.000Z".

(** The write transaction aborts at commit, without an error event. *)
Definition abortingWriteEnv : Browser :=
  mkBrowser true false true false false true (fun n => replicate n 7%Z)
            "2024-05-01T12:00:00.000Z".

Definition freshWorld : World := mkWorld ∅ NoPromise "session-1"%string [].

(** Two users have a record; one of them carries the empty id. *)
Definition twoUserWorld : World :=
  mkWorld (<[""%string := mkRecord "" [1%Z] [2%Z] "t0"]>
             (<["user-2"%string := mkRecord "user-2" [3%Z] [4%Z] "t1"]> ∅))
          Opened "session-1"%string [].

Definition key1 : bytes := replicate 64 1%Z.
Definition key2 : bytes := replicate 64 2%Z.

Lemma toy_hash_has_requested_length : hash_has_requested_length.
Proof.
  intros n msg k. cbn. unfold toy_generichash.
  rewrite length_take, !length_app, length_replicate. lia.
Qed.

Lemma toy_secretbox_opens_with_same_key : secretbox_opens_with_same_key.
Proof.
  intros m n k. cbn. unfold toy_secretbox_open_easy, toy_secretbox_easy.
  rewrite <- length_app, app_assoc, take_app_length, drop_app_length.
  by rewrite decide_True.
Qed.

Lemma toy_secretbox_rejects_other_key : secretbox_rejects_other_key.
Proof.
  intros m n k k' Hk Hk' Hne. cbn.
  unfold toy_secretbox_open_easy, toy_secretbox_easy.
  rewrite decide_False; [done |].
  replace (length k' + length n) with (length (k ++ n))
    by (rewrite length_app; lia).
  rewrite app_assoc, take_app_length.
  intros Heq. by apply app_inv_tail in Heq.
Qed.

Lemma toy_utf8_roundtrip : utf8_roundtrip.
Proof.
  intros s. cbn. unfold toy_decode, toy_encode.
  rewrite <- list_fmap_compose.
  rewrite <- (string_of_list_ascii_of_string s) at 2. f_equal.
  induction (list_ascii_of_string s) as [| a l IH]; [done |].
  cbn. by rewrite Nat2Z.id, ascii_nat_embedding, IH.
Qed.

Lemma toy_payload_json_roundtrip : payload_json_roundtrip.
Proof. by intros m. Qed.

Lemma toy_restore_replaces_session : restore_replaces_session.
Proof. by intros m m'. Qed.

(** *** The theorems at work on the small instance *)

Lemma persist_then_load_restores_witness :
  let rp := persistCryptoState "user-1" key1 workingEnv freshWorld in
  let rl := loadCryptoState "user-1" key1 workingEnv
              (set_memory "" rp.2) in
  rp.1 = Resolved tt ∧
  rl.1 = Resolved true ∧
  memory rl.2 = "session-1"%string ∧
  sessions rl.2 = sessions rp.2.
Proof.
  apply (persist_then_load_restores "user-1" key1 workingEnv workingEnv
           freshWorld "");
    [ apply toy_secretbox_opens_with_same_key
    | apply toy_utf8_roundtrip
    | apply toy_payload_json_roundtrip
    | apply toy_restore_replaces_session
    | reflexivity .. ].
Defined.

Lemma load_with_other_key_fails_witness :
  let rp := persistCryptoState "user-1" key1 workingEnv freshWorld in
  let w1 := set_memory "session-2" rp.2 in
  let rl := loadCryptoState "user-1" key2 workingEnv w1 in
  key1 ≠ key2 ∧
  rp.1 = Resolved tt ∧
  rl = (Resolved false, w1) ∧
  memory rl.2 = "session-2"%string ∧
  restoreLog rl.2 = restoreLog w1.
Proof.
  assert (Hne : key1 ≠ key2) by discriminate.
  assert (Hcoll : key1 ≠ key2 → deriveStorageKey key1 ≠ deriveStorageKey key2)
    by (intros _; vm_compute; discriminate).
  pose proof (load_with_other_key_fails "user-1" key1 key2 workingEnv
                workingEnv freshWorld "session-2"
                toy_hash_has_requested_length toy_secretbox_rejects_other_key
                Hne Hcoll eq_refl eq_refl eq_refl eq_refl) as Hw.
  cbv zeta in Hw. destruct Hw as (Hp & Hl & Hm & Hlog & _).
  cbv zeta. repeat split; assumption.
Defined.

(** C3, where the code departs from it: with nothing persisted for the
    user, [loadCryptoState] is rejected instead of resolving to [false] when
    the database does not open (by [request.onerror] or by a throw of
    [indexedDB.open]) and when [db.transaction] throws, because
    [await openDb()] and the promise around the read sit outside the [try];
    [clearCryptoStore], which has them inside, resolves on the same
    inputs. *)
Lemma load_rejects_when_database_does_not_open :
  noUsableBackup "user-1" key1 noDatabaseEnv freshWorld ∧
  (loadCryptoState "user-1" key1 noDatabaseEnv freshWorld).1
  = Rejected OpenError ∧
  (loadCryptoState "user-1" key1 throwingOpenEnv freshWorld).1
  = Rejected OpenThrown ∧
  (loadCryptoState "user-1" key1 noTransactionEnv freshWorld).1
  = Rejected TransactionThrown ∧
  (loadCryptoState "user-1" key1 noDatabaseEnv freshWorld).1
  ≠ Resolved false ∧
  (clearCryptoStore (Some "user-1"%string) noDatabaseEnv freshWorld).1
  = Resolved tt ∧
  (clearCryptoStore (Some "user-1"%string) throwingOpenEnv freshWorld).1
  = Resolved tt ∧
  (clearCryptoStore (Some "user-1"%string) noTransactionEnv freshWorld).1
  = Resolved tt.
Proof.
  split; [by left |]. repeat split; try reflexivity. discriminate.
Qed.

(** A write whose [put] request fails surfaces as a rejection of
    [persistCryptoState]. *)
Lemma persist_rejection_reaches_the_caller :
  (persistCryptoState "user-1" key1 failingWriteEnv freshWorld).1
  = Rejected NullTxError ∧
  (persistCryptoState "user-1" key1 failingWriteEnv freshWorld).1
  ≠ Resolved tt.
Proof. split; [reflexivity | discriminate]. Qed.

Lemma persist_rejects_on_transaction_failure_witness :
  let r := persistCryptoState "user-1" key1 failingWriteEnv twoUserWorld in
  r.1 = Rejected NullTxError ∧
  sessions r.2 = sessions twoUserWorld ∧
  memory r.2 = memory twoUserWorld.
Proof.
  intros r.
  destruct (persist_rejects_on_transaction_failure "user-1" key1
              failingWriteEnv twoUserWorld eq_refl eq_refl eq_refl)
    as (Hrej & Hs & Hm).
  split; [apply Hrej; reflexivity |]. split; [exact Hs | exact Hm].
Defined.

Lemma deriveStorageKey_spec_witness :
  length (deriveStorageKey key1) = 32 ∧
  deriveStorageKey key1
  = crypto_generichash 32 (TextEncoder_encode "haven-local-crypto-store") key1.
Proof.
  destruct (deriveStorageKey_spec key1 toy_hash_has_requested_length)
    as (Heq & Hlen & _).
  split; [exact Hlen | exact Heq].
Defined.

Lemma clearCryptoStore_spec_witness :
  let r := clearCryptoStore (Some "user-2"%string) workingEnv twoUserWorld in
  r.1 = Resolved tt ∧
  memory r.2 = memory twoUserWorld ∧
  sessions r.2 = delete "user-2"%string (sessions twoUserWorld) ∧
  sessions r.2 !! "user-2" = None ∧
  sessions r.2 !! ""%string = sessions twoUserWorld !! ""%string.
Proof.
  destruct (clearCryptoStore_spec (Some "user-2"%string) workingEnv
              twoUserWorld) as (Hr & Hm & Hok & _).
  split; [exact Hr |]. split; [exact Hm |].
  destruct Hok as [Hdel _]; [reflexivity .. |].
  destruct (Hdel "user-2"%string) as (Hs & Hgone & Hother);
    [reflexivity | discriminate |].
  split; [exact Hs |]. split; [exact Hgone |].
  apply Hother. discriminate.
Defined.

(** *** The further facts at work on the small instance *)

(** A codec whose restore gives up half-way. *)
Definition throwingBackup : Backup := {|
  Session := string;
  buildBackupPayload := fun m => m;
  restoreCryptoFromPayload := fun payload _ => (Throws, "partial"%string)
|}.

Lemma openDb_cached_and_retried_witness :
  openDb noDatabaseEnv (openDb workingEnv freshWorld).2
  = (Resolved tt, (openDb workingEnv freshWorld).2) ∧
  openDb workingEnv (openDb noDatabaseEnv freshWorld).2
  = (Resolved tt, set_dbPromise Opened freshWorld) ∧
  openDb workingEnv (openDb throwingOpenEnv freshWorld).2
  = (Rejected OpenThrown, (openDb throwingOpenEnv freshWorld).2).
Proof.
  split; [| split].
  - destruct (openDb_cached_and_retried workingEnv noDatabaseEnv freshWorld)
      as (Hcached & _ & _).
    apply Hcached. reflexivity.
  - destruct (openDb_cached_and_retried noDatabaseEnv workingEnv freshWorld)
      as (_ & Hretry & _).
    destruct Hretry as [_ Hopen]; [reflexivity |].
    apply Hopen. reflexivity.
  - destruct (openDb_cached_and_retried throwingOpenEnv workingEnv
                freshWorld) as (_ & _ & Hkept).
    destruct Hkept as [_ Hrej]; [reflexivity |]. exact Hrej.
Defined.

Lemma persist_all_or_nothing_witness :
  let r := persistCryptoState "user-1" key1 abortingWriteEnv twoUserWorld in
  r.1 = Pending ∧
  sessions r.2 = sessions twoUserWorld ∧
  memory r.2 = memory twoUserWorld.
Proof.
  intros r.
  destruct (persist_all_or_nothing "user-1" key1 abortingWriteEnv
              twoUserWorld) as ([Hput | [Hs Hwhy]] & Hm & _).
  - destruct Hput as (_ & _ & _ & _ & Hc). discriminate Hc.
  - split; [reflexivity |]. split; [exact Hs | exact Hm].
Defined.

Lemma persist_overwrites_witness :
  let w1 := (persistCryptoState "user-2" key1 workingEnv twoUserWorld).2 in
  let r2 := persistCryptoState "user-2" key2 workingEnv
              (set_memory "session-2" w1) in
  r2.1 = Resolved tt ∧
  sessions r2.2 !! "user-2"
  = Some (recordFor "user-2" key2 workingEnv
            (set_memory "session-2" twoUserWorld)) ∧
  sessions r2.2 !! ""%string = sessions twoUserWorld !! ""%string.
Proof.
  destruct (persist_overwrites "user-2" key1 key2 workingEnv workingEnv
              twoUserWorld "session-2")
    as (Hr & _ & Hu & Hother); [reflexivity .. |].
  split; [exact Hr |]. split; [exact Hu |].
  apply Hother. discriminate.
Defined.

Lemma persist_retry_after_open_failure_witness :
  let r1 := persistCryptoState "user-1" key1 noDatabaseEnv freshWorld in
  let r1' := persistCryptoState "user-1" key1 throwingOpenEnv freshWorld in
  r1.1 = Rejected OpenError ∧
  (persistCryptoState "user-1" key1 workingEnv r1.2).1 = Resolved tt ∧
  sessions (persistCryptoState "user-1" key1 workingEnv r1.2).2 !! "user-1"
  = Some (recordFor "user-1" key1 workingEnv freshWorld) ∧
  r1'.1 = Rejected OpenThrown ∧
  (persistCryptoState "user-1" key1 workingEnv r1'.2).1
  = Rejected OpenThrown.
Proof.
  intros r1 r1'.
  destruct (persist_retry_after_open_failure "user-1" key1 noDatabaseEnv
              workingEnv freshWorld eq_refl eq_refl) as [Hretry _].
  destruct Hretry as (Hr1 & _ & Hr2 & Hrec); [reflexivity .. |].
  destruct (persist_retry_after_open_failure "user-1" key1 throwingOpenEnv
              workingEnv freshWorld eq_refl eq_refl) as [_ Hkept].
  destruct Hkept as (Hr1' & Hr2' & _); [reflexivity |].
  split; [exact Hr1 |]. split; [exact Hr2 |]. split; [exact Hrec |].
  split; [exact Hr1' | exact Hr2'].
Defined.

Lemma load_reads_only_own_record_witness :
  let w1 := twoUserWorld in
  let w2 := (clearCryptoStore (Some "user-2"%string) workingEnv
               twoUserWorld).2 in
  sessions w1 !! "user-2" ≠ sessions w2 !! "user-2" ∧
  (loadCryptoState "" key1 workingEnv w1).1
  = (loadCryptoState "" key1 workingEnv w2).1 ∧
  memory (loadCryptoState "" key1 workingEnv w1).2
  = memory (loadCryptoState "" key1 workingEnv w2).2 ∧
  restoreLog (loadCryptoState "" key1 workingEnv w1).2
  = restoreLog (loadCryptoState "" key1 workingEnv w2).2.
Proof.
  intros w1 w2. split; [vm_compute; discriminate |].
  apply (load_reads_only_own_record "" key1 workingEnv w1 w2); reflexivity.
Defined.

Lemma load_true_only_after_restore_witness :
  let w := (persistCryptoState "user-1" key1 workingEnv freshWorld).2 in
  (loadCryptoState "user-1" key1 workingEnv w).1 = Resolved true ∧
  ∃ r plaintext payload m',
    request_succeeds workingEnv = true ∧
    sessions w !! "user-1" = Some r ∧
    crypto_secretbox_open_easy (encrypted r) (nonce r)
      (deriveStorageKey key1) = Some plaintext ∧
    JSON_parse (TextDecoder_decode plaintext) = Some payload ∧
    restoreCryptoFromPayload payload (memory w) = (Normal, m') ∧
    memory (loadCryptoState "user-1" key1 workingEnv w).2 = m' ∧
    restoreLog (loadCryptoState "user-1" key1 workingEnv w).2
    = restoreLog w ++ [payload].
Proof.
  intros w.
  assert (Htrue : (loadCryptoState "user-1" key1 workingEnv w).1
                  = Resolved true) by reflexivity.
  split; [exact Htrue |].
  exact (load_true_only_after_restore "user-1" key1 workingEnv w Htrue).
Defined.

Lemma load_swallows_restore_failure_witness :
  let w0 := @mkWorld toyBuiltins throwingBackup ∅ NoPromise "session-1"%string []
  in
  let w := (persistCryptoState (H1 := throwingBackup) "user-1" key1
              workingEnv w0).2 in
  loadCryptoState (H1 := throwingBackup) "user-1" key1 workingEnv w
  = (Resolved false,
     @mkWorld toyBuiltins throwingBackup (sessions w) Opened "partial"%string
              (restoreLog w ++ ["session-1"%string])).
Proof.
  intros w0 w.
  eapply (load_swallows_restore_failure (H1 := throwingBackup) "user-1" key1
            workingEnv w); reflexivity.
Defined.

Lemma clear_then_load_finds_nothing_witness :
  let w1 := (clearCryptoStore (Some "user-2"%string) workingEnv
               twoUserWorld).2 in
  is_Some (sessions twoUserWorld !! "user-2") ∧
  loadCryptoState "user-2" key1 workingEnv w1 = (Resolved false, w1) ∧
  memory w1 = memory twoUserWorld.
Proof.
  split; [by eexists |].
  apply (clear_then_load_finds_nothing (Some "user-2"%string) "user-2" key1
           workingEnv workingEnv twoUserWorld); try reflexivity.
  by right.
Defined.

Lemma clear_missing_user_is_noop_witness :
  sessions (clearCryptoStore (Some "user-9"%string) workingEnv twoUserWorld).2
  = sessions twoUserWorld.
Proof.
  apply (clear_missing_user_is_noop "user-9" workingEnv twoUserWorld);
    [discriminate | reflexivity].
Defined.

End CryptoStore.
